(** * The Autoscaler resource handle of nodejs-compute

    A shallow embedding of [src/autoscaler.ts]: the [Autoscaler] class
    (constructor, [delete], [setMetadata]) over a model of JavaScript
    values, of the object store shared with the caller, and of the
    transport the class talks to.  Callback-taking methods are written in
    continuation-passing style in a small state-and-exception monad, the
    way the TypeScript source is written. *)

From Stdlib Require Import ZArith.
From stdpp Require Import gmap strings list.

Local Open Scope string_scope.
Local Open Scope list_scope.
Set Warnings "-register-all".

(** ** JavaScript values *)

(** Values that cross the boundary of the class.  Numbers are kept to the
    integers: the class never computes with them, it only forwards them. *)
Inductive JsValue : Type :=
| JsUndefined
| JsNull
| JsBool (b : bool)
| JsNumber (z : Z)
| JsString (s : string)
| JsArray (items : list JsValue)
| JsObject (fields : list (string * JsValue)).

(** The own properties of an object, in insertion order. *)
Abbreviation Fields := (list (string * JsValue)).

(** [o[k]] on the own properties of an object. *)
Fixpoint get_field (k : string) (o : Fields) : option JsValue :=
  match o with
  | [] => None
  | (k', v) :: o' => if String.eqb k k' then Some v else get_field k o'
  end.

(** [o[k] = v]: an existing property keeps its position, a new one is
    appended. *)
Fixpoint set_field (k : string) (v : JsValue) (o : Fields) : Fields :=
  match o with
  | [] => [(k, v)]
  | (k', v') :: o' =>
      if String.eqb k k' then (k, v) :: o' else (k', v') :: set_field k v o'
  end.

(** The properties of [o] other than [k], in order. *)
Fixpoint remove_field (k : string) (o : Fields) : Fields :=
  match o with
  | [] => []
  | (k', v') :: o' =>
      if String.eqb k k' then remove_field k o' else (k', v') :: remove_field k o'
  end.

(** Exceptions a method can raise. *)
Inductive Exn : Type :=
| TypeError (msg : string).

(** [v.k] for a key that is no built-in property of a primitive or of an
    array (the class only reads [name]): reading a property of [undefined]
    or [null] raises, every other value without the property gives
    [undefined]. *)
Definition member (v : JsValue) (k : string) : Exn + JsValue :=
  match v with
  | JsUndefined => inl (TypeError "Cannot read properties of undefined")
  | JsNull => inl (TypeError "Cannot read properties of null")
  | JsObject o => inr (default JsUndefined (get_field k o))
  | _ => inr JsUndefined
  end.

(** ** Errors handed to callbacks *)

(** An error as the transport reports it: the HTTP status and a message. *)
Record ApiError : Type := mkApiError {
  code : Z;
  message : string;
}.

(** ** The parent scope *)

(** Modelled from the spec: the [Zone] and [Compute] declarations are not
    among the sources ([./zone] is only imported as a type).  The class reads
    [zone.name] and [zone.compute.pollIntervalMs]; the spec gives the poll
    interval as "a numeric value, in milliseconds". *)
Record Compute : Type := mkCompute {
  pollIntervalMs : Z;
}.

Record Zone : Type := mkZone {
  zone_name : string;
  compute : Compute;
}.

(** ** Operation handles *)

(** The fields of an Operation handle this class touches: the zone that
    built it, the provider-assigned id it was built from, and the
    [metadata] cache the class assigns. *)
Record Operation : Type := mkOperation {
  operation_zone : Zone;
  operation_id : JsValue;
  operation_metadata : JsValue;
}.

(** Modelled from the spec: [zone.operation(id)] is not among the sources; the
    parent scope supplies "a method to construct an Operation handle by
    provider-assigned id".  A new handle has no cached metadata. *)
Definition Zone_operation (zone : Zone) (id : JsValue) : Operation :=
  {| operation_zone := zone; operation_id := id;
     operation_metadata := JsUndefined |}.

(** [operation.metadata = resp]. *)
Definition set_metadata (operation : Operation) (resp : JsValue) : Operation :=
  {| operation_zone := operation_zone operation;
     operation_id := operation_id operation;
     operation_metadata := resp |}.

(** ** Requests *)

Inductive Method : Type := GET | POST | PATCH | DELETE.

(** Locations of the mutable objects shared between caller and class. *)
Abbreviation loc := positive.

(** The options object given to [request]; [json] is a reference to the
    body object, as in the source. *)
Record ReqOpts : Type := mkReqOpts {
  method : Method;
  uri : string;
  qs : list (string * string);
  json : option loc;
}.

(** Who issued a request: [this.request] of the handle (its path is
    resolved under the parent's [baseUrl] and the handle's id) or
    [this.zone.request]. *)
Inductive Issuer : Type :=
| ViaHandle (zone : Zone) (baseUrl id : string)
| ViaZone (zone : Zone).

(** A request as it is handed to the transport: the body is the content
    of the [json] object at the time of the call, before serialisation. *)
Record Sent : Type := mkSent {
  sent_by : Issuer;
  sent_method : Method;
  sent_uri : string;
  sent_qs : list (string * string);
  sent_body : option Fields;
}.

(** What the handle did to the outside, in order. *)
Inductive Event : Type :=
| EvRequest (s : Sent)
| EvCreate (zone : Zone) (id : string) (config : JsValue).

(** ** The world and the monad of methods *)

Record World : Type := mkWorld {
  heap : gmap loc Fields;
  trace : list Event;
}.

Inductive Result (A : Type) : Type :=
| Ok (a : A)
| Throw (e : Exn).
Arguments Ok {A} a.
Arguments Throw {A} e.

Definition M (A : Type) : Type := World -> Result A * World.

Definition ret {A} (a : A) : M A := fun w => (Ok a, w).

Definition bind {A B} (m : M A) (f : A -> M B) : M B :=
  fun w =>
    match m w with
    | (Ok a, w') => f a w'
    | (Throw e, w') => (Throw e, w')
    end.

Definition throw {A} (e : Exn) : M A := fun w => (Throw e, w).

Notation "'let*' x ':=' m 'in' k" := (bind m (fun x => k))
  (at level 10, x name, m at level 100, k at level 200).
Notation "'do' m 'then' k" := (bind m (fun _ => k))
  (at level 10, m at level 100, k at level 200).

(** Lift a property read that may raise. *)
Definition lift {A} (r : Exn + A) : M A :=
  match r with
  | inl e => throw e
  | inr a => ret a
  end.

(** [{}]: a new empty object. *)
Definition new_object : M loc :=
  fun w =>
    let l := fresh (dom (heap w)) in
    (Ok l, {| heap := <[l := []]> (heap w); trace := trace w |}).

(** [obj.k = v] on the object at [l], in place. *)
Definition assign (l : loc) (k : string) (v : JsValue) : M unit :=
  fun w =>
    (Ok tt, {| heap := alter (set_field k v) l (heap w); trace := trace w |}).

(** ** Callbacks *)

(** [(err, resp) => void], the callback of [request]. *)
Definition RequestCallback : Type := option ApiError -> JsValue -> M unit.

(** [OperationCallback]: [(err, operation, apiResponse) => void]. *)
Definition OperationCallback : Type :=
  option ApiError -> option Operation -> JsValue -> M unit.

(** [util.noop]. *)
Definition noop : OperationCallback := fun _ _ _ => ret tt.

(** The resource handle of the spec's data model: a name, the owning
    parent and the path segment of the resource type. *)
Record ResourceHandle : Type := mkResourceHandle {
  handle_name : string;
  handle_parent : Zone;
  handle_baseUrl : string;
}.

(** [(err, instance, operation, apiResponse) => void], the callback of
    [create]. *)
Definition CreateCallback : Type :=
  option ApiError -> option ResourceHandle -> option Operation -> JsValue ->
  M unit.

(** [(err, instance, apiResponse) => void], the callback of [get]. *)
Definition InstanceCallback : Type :=
  option ApiError -> option ResourceHandle -> JsValue -> M unit.

(** [(err, metadata, apiResponse) => void], the callback of
    [getMetadata]. *)
Definition MetadataCallback : Type :=
  option ApiError -> JsValue -> JsValue -> M unit.

(** [(err, exists) => void], the callback of [exists]. *)
Definition ExistsCallback : Type := option ApiError -> option bool -> M unit.

(** ** The configuration handed to [ServiceObject] *)

(** The [methods] object of the constructor: which inherited methods the
    handle exposes. *)
Record Methods : Type := mkMethods {
  methods_create : bool;
  methods_exists : bool;
  methods_get : bool;
  methods_getMetadata : bool;
}.

Record ServiceObjectConfig : Type := mkServiceObjectConfig {
  parent : Zone;
  baseUrl : string;
  id : string;
  createMethod : string -> JsValue -> CreateCallback -> M unit;
  methods : Methods;
  config_pollIntervalMs : Z;
}.

(** An [Autoscaler] instance: what [super(...)] stored, and the two own
    fields the constructor assigns. *)
Record Autoscaler : Type := mkAutoscaler {
  super : ServiceObjectConfig;
  name : string;
  zone : Zone;
}.

(** The options of [get]: [autoCreate], and the configuration [create]
    needs. *)
Record GetOptions : Type := mkGetOptions {
  autoCreate : bool;
  options_config : JsValue;
}.

(** An argument of a call, as far as the two methods of the class tell
    arguments apart: [undefined] (also an argument not given), [null], a
    reference to an object, or a function. *)
Inductive Arg : Type :=
| ArgUndefined
| ArgNull
| ArgObject (l : loc)
| ArgFunction (f : OperationCallback).

(** ** The class and its collaborators *)

Definition is_not_found (e : ApiError) : bool := (code e =? 404)%Z.

Section Class.

(** The provider behind the transport: what it answers to a request,
    given what has happened so far.  An answer is the pair [(err, resp)]
    the request callback receives. *)
Variable transport : list Event -> Sent -> option ApiError * JsValue.

(** What the provider answers to a creation issued by
    [zone.createAutoscaler]: an error or an operation, and the raw
    response. *)
Variable creation :
  list Event -> Zone -> string -> JsValue ->
  option ApiError * option Operation * JsValue.

(** Modelled from the spec: the transport abstraction
    [request(method, path, query, body) -> response | Error] is an
    external collaborator, not among the sources.  The request is issued once,
    its body is read from the [json] object as it is at that moment, and
    the callback runs on the answer. *)
Definition request (issuer : Issuer) (reqOpts : ReqOpts)
    (callback : RequestCallback) : M unit :=
  fun w =>
    let s := {| sent_by := issuer;
                sent_method := method reqOpts;
                sent_uri := uri reqOpts;
                sent_qs := qs reqOpts;
                sent_body := match json reqOpts with
                             | Some l => heap w !! l
                             | None => None
                             end |} in
    let '(err, resp) := transport (trace w) s in
    callback err resp {| heap := heap w; trace := trace w ++ [EvRequest s] |}.

(** [this.request] of a service object. *)
Definition ServiceObject_request (self : ServiceObjectConfig) :
    ReqOpts -> RequestCallback -> M unit :=
  request (ViaHandle (parent self) (baseUrl self) (id self)).

(** [zone.request]. *)
Definition Zone_request (zone : Zone) : ReqOpts -> RequestCallback -> M unit :=
  request (ViaZone zone).

(** Modelled from the spec: [zone.createAutoscaler] is not among the sources.
    [create(config) -> (ResourceHandle, OperationHandle)] issues the
    creation of the named resource and fails with the error of the
    provider. *)
Definition Zone_createAutoscaler (zone : Zone) (name : string)
    (config : JsValue) (callback : CreateCallback) : M unit :=
  fun w =>
    let '(err, operation, resp) := creation (trace w) zone name config in
    let w' := {| heap := heap w;
                 trace := trace w ++ [EvCreate zone name config] |} in
    match err with
    | Some e => callback (Some e) None None resp w'
    | None =>
        callback None
          (Some {| handle_name := name; handle_parent := zone;
                   handle_baseUrl := "/autoscalers" |})
          operation resp w'
    end.

(** *** [class Autoscaler extends ServiceObject] *)

(** [constructor(zone, name)]. *)
Definition Autoscaler_new (zone : Zone) (name : string) : Autoscaler :=
  let methods :=
    {| methods_create := true;
       methods_exists := true;
       methods_get := true;
       methods_getMetadata := true |} in
  {| super :=
       {| parent := zone;
          baseUrl := "/autoscalers";
          id := name;
          createMethod := Zone_createAutoscaler zone;
          methods := methods;
          config_pollIntervalMs := pollIntervalMs (compute zone) |};
     name := name;
     zone := zone |}.

(** [delete(callback?)]. *)
Definition Autoscaler_delete (this : Autoscaler)
    (callback : option OperationCallback) : M unit :=
  let callback := default noop callback in
  ServiceObject_request (super this)
    {| method := DELETE; uri := ""; qs := []; json := None |}
    (fun err resp =>
       match err with
       | Some e => callback (Some e) None resp
       | None =>
           let* id := lift (member resp "name") in
           let operation := Zone_operation (zone this) id in
           let operation := set_metadata operation resp in
           callback None (Some operation) resp
       end).

(** [setMetadata(metadata?, callback?)].  [metadata], documented as an
    object, is a reference to the caller's object, or omitted. *)
Definition Autoscaler_setMetadata (this : Autoscaler)
    (metadata : option loc) (callback : option OperationCallback) : M unit :=
  let callback := default noop callback in
  let* json := match metadata with
               | Some l => ret l
               | None => new_object
               end in
  do assign json "name" (JsString (name this)) then
  do assign json "zone" (JsString (zone_name (zone this))) then
  Zone_request (zone this)
    {| method := PATCH; uri := "/autoscalers";
       qs := [("autoscaler", name this)]; json := Some json |}
    (fun err resp =>
       match err with
       | Some e => callback (Some e) None resp
       | None =>
           let* id := lift (member resp "name") in
           let operation := Zone_operation (zone this) id in
           let operation := set_metadata operation resp in
           callback None (Some operation) resp
       end).

(** *** The methods inherited from [ServiceObject] *)

(** Modelled from the spec: the bodies of [ServiceObject]'s [create],
    [getMetadata], [get] and [exists] are not among the sources (the class
    only switches them on in [methods]).  The definitions follow section 4.1:
    [getMetadata] is the raw metadata fetch. *)
Definition ServiceObject_getMetadata (self : ServiceObjectConfig)
    (callback : MetadataCallback) : M unit :=
  ServiceObject_request self
    {| method := GET; uri := ""; qs := []; json := None |}
    (fun err resp => callback err resp resp).

(** Modelled from the spec: [create(config)] goes through the
    [createMethod] the handle was configured with, under its own id. *)
Definition ServiceObject_create (self : ServiceObjectConfig)
    (config : JsValue) (callback : CreateCallback) : M unit :=
  createMethod self (id self) config callback.

(** Modelled from the spec: [get(options?)] "fetches metadata; if
    [options.autoCreate] is set and the resource is absent, transparently
    calls [create] with the caller-supplied config and returns the newly
    created handle instead of failing". *)
Definition ServiceObject_get (self : ServiceObjectConfig)
    (options : GetOptions) (callback : InstanceCallback) : M unit :=
  ServiceObject_getMetadata self
    (fun err metadata _ =>
       match err with
       | Some e =>
           if is_not_found e && autoCreate options then
             ServiceObject_create self (options_config options)
               (fun err instance _ apiResponse =>
                  match err with
                  | Some e' => callback (Some e') None apiResponse
                  | None => callback None instance apiResponse
                  end)
           else callback (Some e) None metadata
       | None =>
           callback None
             (Some {| handle_name := id self; handle_parent := parent self;
                      handle_baseUrl := baseUrl self |})
             metadata
       end).

(** Modelled from the spec: [exists()] "performs a [get] and translates a
    not-found response into [false] rather than propagating it as an
    error; any other transport failure still propagates". *)
Definition ServiceObject_exists (self : ServiceObjectConfig)
    (callback : ExistsCallback) : M unit :=
  ServiceObject_get self
    {| autoCreate := false; options_config := JsUndefined |}
    (fun err _ _ =>
       match err with
       | Some e =>
           if is_not_found e then callback None (Some false)
           else callback (Some e) None
       | None => callback None (Some true)
       end).

(** Modelled from the spec: the "methods mixin" of [ServiceObject], which
    attaches [create], [get], [exists] and [getMetadata] to a resource
    type, is not among the sources.  A method the [methods] object does
    not switch on is absent from the instance, and calling it raises. *)
Definition inherited {A} (enabled : bool) (what : string) (m : M A) : M A :=
  if enabled then m else throw (TypeError (what ++ " is not a function")%string).

Definition Autoscaler_exists (this : Autoscaler)
    (callback : ExistsCallback) : M unit :=
  inherited (methods_exists (methods (super this))) "exists"
    (ServiceObject_exists (super this) callback).


(** *** [promisifyAll(Autoscaler)] *)

(** [callback = callback || util.noop]: the callback a method works with
    when the argument bound to its [callback] parameter is [a].  A falsy
    argument gives [util.noop]; an object is kept and cannot be called. *)
Definition callback_param (a : Arg) : option OperationCallback :=
  match a with
  | ArgUndefined | ArgNull => None
  | ArgFunction f => Some f
  | ArgObject _ =>
      Some (fun _ _ _ => throw (TypeError "callback is not a function"))
  end.


(** [setMetadata] applied to an argument list: [metadata] is the first
    argument and [callback] the second.  A function bound to [metadata] is
    truthy, so [json] is that function, and the assignment to its
    read-only [name] raises before anything is sent. *)
Definition Autoscaler_setMetadata_apply (this : Autoscaler)
    (args : list Arg) : M unit :=
  let callback := callback_param (default ArgUndefined (args !! 1)) in
  match default ArgUndefined (args !! 0) with
  | ArgUndefined | ArgNull => Autoscaler_setMetadata this None callback
  | ArgObject l => Autoscaler_setMetadata this (Some l) callback
  | ArgFunction _ =>
      throw (TypeError "Cannot assign to read only property 'name' of function")
  end.

(** A promise, seen through [then]: it runs one of the two handlers. *)
Definition Promise (A : Type) : Type :=
  (A -> M unit) -> (ApiError -> M unit) -> M unit.

(** The arguments of a call without its trailing [undefined]s. *)
Fixpoint drop_trailing_undefined (args : list Arg) : list Arg :=
  match args with
  | [] => []
  | a :: rest =>
      match drop_trailing_undefined rest, a with
      | [], ArgUndefined => []
      | rest', _ => a :: rest'
      end
  end.

(** Whether the last argument that is not [undefined] is a function. *)
Definition ends_with_function (args : list Arg) : bool :=
  match last (drop_trailing_undefined args) with
  | Some (ArgFunction _) => true
  | _ => false
  end.

(** Modelled from the spec: [promisifyAll] belongs to
    [@google-cloud/promisify] and is not among the sources.  "All async
    methods will return a Promise in the event that a callback is
    omitted": a call whose last argument is a function goes to the method
    as it is; any other call goes to the method with a callback appended
    after the arguments given, and that callback rejects the promise with
    its error argument and otherwise resolves it with the remaining
    arguments ([data[0]] the operation, [data[1]] the API response).  The
    wrapper knows nothing of the parameters of the method, so the appended
    callback is bound to whichever parameter comes next.  An exception
    raised while the method runs is shown as raised. *)
Definition promisify (originalMethod : list Arg -> M unit) (args : list Arg) :
    Promise (option Operation * JsValue) :=
  fun resolve reject =>
    if ends_with_function args then originalMethod args
    else
      originalMethod
        (drop_trailing_undefined args ++
         [ArgFunction (fun err operation apiResponse =>
                         match err with
                         | Some e => reject e
                         | None => resolve (operation, apiResponse)
                         end)]).


Definition Autoscaler_setMetadata_promisified (this : Autoscaler) :
    list Arg -> Promise (option Operation * JsValue) :=
  promisify (Autoscaler_setMetadata_apply this).

End Class.

(** ** Waiting on an operation *)

(** Modelled from the spec: the Operation class ([./operation]) and its
    polling loop are not among the sources.  Section 3 gives the handle a status
    and an ordered list of per-item errors; section 4.2 gives the loop:
    fetch the status after each poll interval; on [DONE] resolve when
    [errors] is empty and reject with [OperationError] carrying the list
    otherwise; reject with [TimeoutError] when the maximum wait elapses
    first; a failed fetch propagates. *)
Inductive Status : Type := PENDING | RUNNING | DONE.

Record OperationState : Type := mkOperationState {
  status : Status;
  errors : list JsValue;
  targetLink : string;
}.

Inductive WaitError : Type :=
| OperationError (errs : list JsValue)
| TimeoutError
| RequestError (e : ApiError).

Inductive WaitResult : Type :=
| Resolved (final : OperationState)
| Rejected (e : WaitError).

(** The outcome a [DONE] operation settles the wait with. *)
Definition settle (s : OperationState) : WaitResult :=
  match errors s with
  | [] => Resolved s
  | _ :: _ => Rejected (OperationError (errors s))
  end.

(** [wait fetch polls k]: the loop from its [k]-th fetch on, when [polls]
    more fetches fit before the maximum wait elapses. *)
Fixpoint wait (fetch : nat -> ApiError + OperationState) (polls k : nat) :
    WaitResult :=
  match polls with
  | O => Rejected TimeoutError
  | S polls' =>
      match fetch k with
      | inl e => Rejected (RequestError e)
      | inr s =>
          match status s with
          | DONE => settle s
          | _ => wait fetch polls' (S k)
          end
      end
  end.

(** ** Vocabulary of the statements *)

(** The patch a caller passes to [setMetadata]: the object behind the
    reference, or the empty object when the argument is omitted. *)
Definition patch_of (w : World) (metadata : option loc) : option Fields :=
  match metadata with
  | Some l => heap w !! l
  | None => Some []
  end.

(** The object [setMetadata] writes to: the caller's, or a new one. *)
Definition patch_target (w : World) (metadata : option loc) : loc :=
  match metadata with
  | Some l => l
  | None => fresh (dom (heap w))
  end.

(** A method started in [w] reaches [w'] and there hands [(err, operation,
    resp)] to its callback, once, whatever the callback is. *)
Definition calls_back (m : option OperationCallback -> M unit) (w : World)
    (err : option ApiError) (operation : option Operation) (resp : JsValue)
    (w' : World) : Prop :=
  forall callback, m callback w = default noop callback err operation resp w'.

(** A method started in [w] raises [exn] in [w'], whatever the callback. *)
Definition raises (m : option OperationCallback -> M unit) (w : World)
    (exn : Exn) (w' : World) : Prop :=
  forall callback, m callback w = (Throw exn, w').

(** The world after the request [s] went out. *)
Definition after_request (w : World) (s : Sent) : World :=
  {| heap := heap w; trace := trace w ++ [EvRequest s] |}.

(** The request [delete] puts on the wire. *)
Definition delete_request (this : Autoscaler) : Sent :=
  {| sent_by := ViaHandle (parent (super this)) (baseUrl (super this))
                  (id (super this));
     sent_method := DELETE; sent_uri := ""; sent_qs := [];
     sent_body := None |}.

(** The metadata fetch of a handle. *)
Definition get_request (self : ServiceObjectConfig) : Sent :=
  {| sent_by := ViaHandle (parent self) (baseUrl self) (id self);
     sent_method := GET; sent_uri := ""; sent_qs := [];
     sent_body := None |}.

(** The request [setMetadata] puts on the wire when the body object holds
    [body]. *)
Definition patch_request (this : Autoscaler) (body : option Fields) : Sent :=
  {| sent_by := ViaZone (zone this);
     sent_method := PATCH; sent_uri := "/autoscalers";
     sent_qs := [("autoscaler", name this)];
     sent_body := body |}.

(** A patch with the handle's name and zone written over it. *)
Definition stamped (this : Autoscaler) (p : Fields) : Fields :=
  set_field "zone" (JsString (zone_name (zone this)))
    (set_field "name" (JsString (name this)) p).

(** What [delete] and [setMetadata] do with the answer to their request. *)
Definition on_answer (this : Autoscaler) (callback : OperationCallback)
    (reply : option ApiError * JsValue) : M unit :=
  match reply with
  | (Some e, resp) => callback (Some e) None resp
  | (None, resp) =>
      match member resp "name" with
      | inl exn => throw exn
      | inr id =>
          callback None (Some (set_metadata (Zone_operation (zone this) id) resp))
            resp
      end
  end.

(** From its [k]-th fetch on, the operation is first seen [DONE] after [n]
    further fetches, in state [s]. *)
Definition reaches_done (fetch : nat -> ApiError + OperationState)
    (k n : nat) (s : OperationState) : Prop :=
  (forall i, i < n ->
     exists s', fetch (k + i) = inr s' /\ status s' <> DONE) /\
  fetch (k + n) = inr s /\ status s = DONE.

(** ** Sample inputs *)

Definition sample_zone : Zone :=
  {| zone_name := "us-central1-a"; compute := {| pollIntervalMs := 500 |} |}.

(** A provider that accepts every request and answers with a pending
    operation. *)
Definition accepting : list Event -> Sent -> option ApiError * JsValue :=
  fun _ _ =>
    (None, JsObject [("name", JsString "operation-1");
                     ("status", JsString "PENDING")]).

(** A provider that fails every request with the given status. *)
Definition failing (status : Z) : list Event -> Sent -> option ApiError * JsValue :=
  fun _ _ => (Some {| code := status; message := "failed" |}, JsNull).

(** A provider that answers every request without an error and without a
    body. *)
Definition bodiless : list Event -> Sent -> option ApiError * JsValue :=
  fun _ _ => (None, JsUndefined).

(** A provider that creates whatever it is asked to. *)
Definition creating :
    list Event -> Zone -> string -> JsValue ->
    option ApiError * option Operation * JsValue :=
  fun _ zone _ _ =>
    (None, Some (Zone_operation zone (JsString "operation-2")),
     JsObject [("name", JsString "operation-2")]).

(** A caller's heap with one patch object at location 1. *)
Definition sample_world : World :=
  {| heap := {[ 1%positive := [("description", JsString "New description");
                               ("name", JsString "other")] ]};
     trace := [] |}.

(** The handle of the examples. *)
Definition sample_handle : Autoscaler :=
  Autoscaler_new creating sample_zone "autoscaler-name".

(** The patch of [sample_world] with the name and zone of [sample_handle]
    written over it. *)
Definition sample_body : Fields :=
  [("description", JsString "New description");
   ("name", JsString "autoscaler-name");
   ("zone", JsString "us-central1-a")].

(** A second handle, in another zone. *)
Definition other_handle : Autoscaler :=
  Autoscaler_new creating
    {| zone_name := "europe-west1-b"; compute := {| pollIntervalMs := 500 |} |}
    "other-autoscaler".

(** ** Properties of objects *)

Lemma get_set_field_same (k : string) (v : JsValue) (o : Fields) :
  get_field k (set_field k v o) = Some v.
Proof.
  induction o as [|[k' v'] o IH]; simpl.
  - by rewrite String.eqb_refl.
  - destruct (String.eqb k k') eqn:E; simpl.
    + by rewrite String.eqb_refl.
    + by rewrite E.
Qed.

Lemma get_set_field_other (k k' : string) (v : JsValue) (o : Fields) :
  k <> k' -> get_field k' (set_field k v o) = get_field k' o.
Proof.
  intros Hne.
  induction o as [|[k0 v0] o IH]; simpl.
  - apply String.eqb_neq in Hne. rewrite String.eqb_sym in Hne. by rewrite Hne.
  - destruct (String.eqb k k0) eqn:E; simpl.
    + apply String.eqb_eq in E. subst k0.
      assert (String.eqb k' k = false) as ->; [|done].
      apply String.eqb_neq. congruence.
    + by rewrite IH.
Qed.

Lemma remove_set_field_same (k : string) (v : JsValue) (o : Fields) :
  remove_field k (set_field k v o) = remove_field k o.
Proof.
  induction o as [|[k' v'] o IH]; simpl.
  - by rewrite String.eqb_refl.
  - destruct (String.eqb k k') eqn:E; simpl.
    + by rewrite String.eqb_refl.
    + by rewrite E, IH.
Qed.

Lemma remove_set_field_other (k k' : string) (v : JsValue) (o : Fields) :
  k <> k' ->
  remove_field k' (set_field k v o) = set_field k v (remove_field k' o).
Proof.
  intros Hne.
  assert (String.eqb k' k = false) as Hk.
  { apply String.eqb_neq. congruence. }
  induction o as [|[k0 v0] o IH]; simpl.
  - by rewrite Hk.
  - destruct (String.eqb k k0) eqn:E; simpl.
    + apply String.eqb_eq in E. subst k0. rewrite Hk. simpl.
      by rewrite String.eqb_refl.
    + destruct (String.eqb k' k0) eqn:E'; simpl; [done|].
      by rewrite E, IH.
Qed.

Lemma remove_field_comm (k k' : string) (o : Fields) :
  remove_field k (remove_field k' o) = remove_field k' (remove_field k o).
Proof.
  induction o as [|[k0 v0] o IH]; simpl; [done|].
  destruct (String.eqb k' k0) eqn:E'; destruct (String.eqb k k0) eqn:E;
    simpl; rewrite ?E, ?E'; by rewrite ?IH.
Qed.

(** Setting two properties leaves all the others where they were. *)
Lemma remove_set_field_two (k1 k2 : string) (v1 v2 : JsValue) (o : Fields) :
  remove_field k1 (remove_field k2 (set_field k2 v2 (set_field k1 v1 o))) =
  remove_field k1 (remove_field k2 o).
Proof.
  rewrite remove_set_field_same.
  rewrite remove_field_comm, remove_set_field_same.
  apply remove_field_comm.
Qed.

(** ** Properties of the store *)

Lemma alter_lookup_insert (f : Fields -> Fields) (l : loc) (p : Fields)
    (h : gmap loc Fields) :
  h !! l = Some p -> alter f l h = <[l := f p]> h.
Proof.
  intros Hl. apply map_eq. intros i.
  rewrite lookup_alter, lookup_insert.
  destruct (decide (l = i)) as [->|]; [by rewrite Hl|done].
Qed.

Lemma fresh_unallocated (h : gmap loc Fields) : h !! fresh (dom h) = None.
Proof. apply not_elem_of_dom, is_fresh. Qed.

(** ** The two methods, step by step *)

Section Runs.

Variable transport : list Event -> Sent -> option ApiError * JsValue.

Lemma Autoscaler_delete_run (this : Autoscaler)
    (callback : option OperationCallback) (w : World) :
  Autoscaler_delete transport this callback w =
  on_answer this (default noop callback)
    (transport (trace w) (delete_request this))
    (after_request w (delete_request this)).
Proof.
  unfold Autoscaler_delete, ServiceObject_request, request, on_answer.
  cbn [method uri qs json]. fold (delete_request this).
  destruct (transport (trace w) (delete_request this)) as [[e|] resp];
    [reflexivity|].
  unfold bind, lift. destruct (member resp "name"); reflexivity.
Qed.

(** The store after the two assignments of [setMetadata]. *)
Lemma stamp_heap (this : Autoscaler) (l : loc) (p : Fields)
    (h : gmap loc Fields) :
  h !! l = Some p ->
  alter (set_field "zone" (JsString (zone_name (zone this)))) l
    (alter (set_field "name" (JsString (name this))) l h) =
  <[l := stamped this p]> h.
Proof.
  intros Hl.
  rewrite (alter_lookup_insert _ l p h Hl).
  rewrite (alter_lookup_insert _ l (set_field "name" (JsString (name this)) p)).
  - by rewrite insert_insert_eq.
  - apply lookup_insert_eq.
Qed.

(** [setMetadata] in general: the object written, the store after the
    two assignments, and the request. *)
Lemma Autoscaler_setMetadata_steps (this : Autoscaler)
    (metadata : option loc) (callback : option OperationCallback)
    (w : World) :
  let l := patch_target w metadata in
  let h0 := match metadata with
            | Some _ => heap w
            | None => <[l := []]> (heap w)
            end in
  let h := alter (set_field "zone" (JsString (zone_name (zone this)))) l
             (alter (set_field "name" (JsString (name this))) l h0) in
  let s := patch_request this (h !! l) in
  Autoscaler_setMetadata transport this metadata callback w =
  on_answer this (default noop callback) (transport (trace w) s)
    {| heap := h; trace := trace w ++ [EvRequest s] |}.
Proof.
  intros l h0 h s. subst l h0 h s.
  unfold Autoscaler_setMetadata, Zone_request, request, on_answer, bind,
    patch_request.
  destruct metadata as [l|]; simpl;
    match goal with
    | |- context [transport ?t ?s] =>
        destruct (transport t s) as [[e|] resp]; [reflexivity|]
    end;
    unfold lift; destruct (member resp "name"); reflexivity.
Qed.

Lemma Autoscaler_setMetadata_run (this : Autoscaler) (metadata : option loc)
    (callback : option OperationCallback) (w : World) (p : Fields) :
  patch_of w metadata = Some p ->
  let s := patch_request this (Some (stamped this p)) in
  Autoscaler_setMetadata transport this metadata callback w =
  on_answer this (default noop callback) (transport (trace w) s)
    {| heap := <[patch_target w metadata := stamped this p]> (heap w);
       trace := trace w ++ [EvRequest s] |}.
Proof.
  intros Hp s. subst s.
  rewrite Autoscaler_setMetadata_steps.
  destruct metadata as [l|]; simpl in Hp |- *.
  - by rewrite (stamp_heap this l p (heap w) Hp), lookup_insert_eq.
  - injection Hp as <-.
    rewrite (stamp_heap this _ [] (<[fresh (dom (heap w)) := []]> (heap w)))
      by apply lookup_insert_eq.
    by rewrite insert_insert_eq, lookup_insert_eq.
Qed.

(** A method that treats the answer as [on_answer] does either calls its
    callback once or raises. *)
Lemma on_answer_outcome (this : Autoscaler)
    (m : option OperationCallback -> M unit) (w w' : World)
    (reply : option ApiError * JsValue) :
  (forall callback,
      m callback w = on_answer this (default noop callback) reply w') ->
  (exists err operation resp, calls_back m w err operation resp w') \/
  (exists exn, raises m w exn w').
Proof.
  intros Hm. destruct reply as [[e|] resp]; simpl in *.
  - left. by exists (Some e), None, resp.
  - destruct (member resp "name") as [exn|id] eqn:Hid.
    + right. by exists exn.
    + left. by eexists None, _, resp.
Qed.

End Runs.

(** ** [setMetadata]: what goes on the wire *)

(** C2: for every metadata patch, also an omitted one, the JSON body that
    [setMetadata] sends has its [name] field equal to the handle's name and
    its [zone] field equal to the name of the parent zone; that request is
    the only thing sent before the callback runs. *)
Theorem setMetadata_payload_names_resource
    (transport : list Event -> Sent -> option ApiError * JsValue)
    (this : Autoscaler) (metadata : option loc) (w : World) :
  is_Some (patch_of w metadata) ->
  exists body w',
    get_field "name" body = Some (JsString (name this)) /\
    get_field "zone" body = Some (JsString (zone_name (zone this))) /\
    trace w' = trace w ++ [EvRequest (patch_request this (Some body))] /\
    ((exists err operation resp,
         calls_back (Autoscaler_setMetadata transport this metadata) w
           err operation resp w') \/
     (exists exn,
         raises (Autoscaler_setMetadata transport this metadata) w exn w')).
Proof.
  intros [p Hp].
  exists (stamped this p).
  exists {| heap := <[patch_target w metadata := stamped this p]> (heap w);
            trace := trace w ++
                     [EvRequest (patch_request this (Some (stamped this p)))] |}.
  split; [|split; [|split]].
  - unfold stamped.
    rewrite get_set_field_other by discriminate. apply get_set_field_same.
  - apply get_set_field_same.
  - reflexivity.
  - destruct (on_answer_outcome this
               (Autoscaler_setMetadata transport this metadata) w _ _
               (fun callback =>
                  Autoscaler_setMetadata_run transport this metadata callback
                    w p Hp))
      as [(err & op & resp & Hcb)|(exn & Hr)].
    + left. by exists err, op, resp.
    + right. by exists exn.
Qed.

Lemma setMetadata_payload_names_resource_witness :
  is_Some (patch_of sample_world (Some 1%positive)) /\
  exists body w',
    get_field "name" body = Some (JsString "autoscaler-name") /\
    get_field "zone" body = Some (JsString "us-central1-a") /\
    trace w' =
      [EvRequest
         (patch_request (Autoscaler_new creating sample_zone "autoscaler-name")
            (Some body))] /\
    ((exists err operation resp,
         calls_back
           (Autoscaler_setMetadata accepting
              (Autoscaler_new creating sample_zone "autoscaler-name")
              (Some 1%positive))
           sample_world err operation resp w') \/
     (exists exn,
         raises
           (Autoscaler_setMetadata accepting
              (Autoscaler_new creating sample_zone "autoscaler-name")
              (Some 1%positive))
           sample_world exn w')).
Proof.
  assert (is_Some (patch_of sample_world (Some 1%positive))) as H.
  { eexists. reflexivity. }
  split; [exact H|].
  exact (setMetadata_payload_names_resource accepting
           (Autoscaler_new creating sample_zone "autoscaler-name")
           (Some 1%positive) sample_world H).
Defined.

(** C10: the body [setMetadata] sends is the caller's patch (the empty
    object when the argument is omitted) with [name] set to the handle's
    name and [zone] set to the name of the parent zone, whatever the patch
    held there; every other field keeps its value and its place; and the
    write happens in the caller's own object, which holds the sent body
    afterwards, while no other object of the store changes (an omitted
    patch is written to a new object). *)
Theorem setMetadata_stamps_patch_in_place
    (transport : list Event -> Sent -> option ApiError * JsValue)
    (this : Autoscaler) (metadata : option loc) (w : World) (p : Fields) :
  patch_of w metadata = Some p ->
  exists body w',
    body = set_field "zone" (JsString (zone_name (zone this)))
             (set_field "name" (JsString (name this)) p) /\
    get_field "name" body = Some (JsString (name this)) /\
    get_field "zone" body = Some (JsString (zone_name (zone this))) /\
    (forall k, k <> "name" -> k <> "zone" ->
       get_field k body = get_field k p) /\
    remove_field "name" (remove_field "zone" body) =
      remove_field "name" (remove_field "zone" p) /\
    trace w' = trace w ++ [EvRequest (patch_request this (Some body))] /\
    heap w' !! patch_target w metadata = Some body /\
    (forall l, l <> patch_target w metadata -> heap w' !! l = heap w !! l) /\
    (metadata = None -> heap w !! patch_target w metadata = None) /\
    ((exists err operation resp,
         calls_back (Autoscaler_setMetadata transport this metadata) w
           err operation resp w') \/
     (exists exn,
         raises (Autoscaler_setMetadata transport this metadata) w exn w')).
Proof.
  intros Hp.
  exists (stamped this p).
  exists {| heap := <[patch_target w metadata := stamped this p]> (heap w);
            trace := trace w ++
                     [EvRequest (patch_request this (Some (stamped this p)))] |}.
  repeat apply conj.
  - reflexivity.
  - unfold stamped.
    rewrite get_set_field_other by discriminate. apply get_set_field_same.
  - apply get_set_field_same.
  - intros k Hn Hz. unfold stamped.
    rewrite !get_set_field_other; congruence.
  - apply remove_set_field_two.
  - reflexivity.
  - apply lookup_insert_eq.
  - intros l Hl. simpl. by rewrite lookup_insert_ne.
  - intros ->. apply fresh_unallocated.
  - destruct (on_answer_outcome this
               (Autoscaler_setMetadata transport this metadata) w _ _
               (fun callback =>
                  Autoscaler_setMetadata_run transport this metadata callback
                    w p Hp))
      as [(err & op & resp & Hcb)|(exn & Hr)].
    + left. by exists err, op, resp.
    + right. by exists exn.
Qed.

Lemma setMetadata_stamps_patch_in_place_witness :
  patch_of sample_world (Some 1%positive) =
    Some [("description", JsString "New description");
          ("name", JsString "other")] /\
  exists w',
    heap w' !! 1%positive =
      Some [("description", JsString "New description");
            ("name", JsString "autoscaler-name");
            ("zone", JsString "us-central1-a")] /\
    trace w' =
      [EvRequest
         (patch_request (Autoscaler_new creating sample_zone "autoscaler-name")
            (Some [("description", JsString "New description");
                   ("name", JsString "autoscaler-name");
                   ("zone", JsString "us-central1-a")]))].
Proof.
  split; [reflexivity|].
  destruct (setMetadata_stamps_patch_in_place accepting
              (Autoscaler_new creating sample_zone "autoscaler-name")
              (Some 1%positive) sample_world _ eq_refl)
    as (body & w' & Hbody & _ & _ & _ & _ & Htrace & Hheap & _).
  exists w'. subst body. split; [exact Hheap | exact Htrace].
Defined.

(** ** [delete] and [setMetadata]: what the callback receives *)

(** C4, as amended: when the transport answers [delete] without an error
    and with a body [resp] whose [name] can be read (any body but
    [undefined] and [null]), the callback receives, right after that one
    request and with nothing else sent, the Operation handle the parent
    zone builds from [resp.name], carrying [resp] as its metadata, and
    [resp] itself. *)
Theorem delete_hands_over_operation
    (transport : list Event -> Sent -> option ApiError * JsValue)
    (this : Autoscaler) (w : World) (resp id : JsValue) :
  transport (trace w) (delete_request this) = (None, resp) ->
  member resp "name" = inr id ->
  calls_back (Autoscaler_delete transport this) w
    None (Some (set_metadata (Zone_operation (zone this) id) resp)) resp
    (after_request w (delete_request this)) /\
  operation_id (set_metadata (Zone_operation (zone this) id) resp) = id /\
  operation_zone (set_metadata (Zone_operation (zone this) id) resp) =
    zone this /\
  operation_metadata (set_metadata (Zone_operation (zone this) id) resp) =
    resp.
Proof.
  intros Hreply Hid. split; [|done].
  intros callback. rewrite Autoscaler_delete_run, Hreply.
  unfold on_answer. by rewrite Hid.
Qed.

Lemma delete_hands_over_operation_witness :
  calls_back
    (Autoscaler_delete accepting
       (Autoscaler_new creating sample_zone "autoscaler-name"))
    sample_world None
    (Some {| operation_zone := sample_zone;
             operation_id := JsString "operation-1";
             operation_metadata :=
               JsObject [("name", JsString "operation-1");
                         ("status", JsString "PENDING")] |})
    (JsObject [("name", JsString "operation-1");
               ("status", JsString "PENDING")])
    (after_request sample_world
       (delete_request (Autoscaler_new creating sample_zone "autoscaler-name"))).
Proof.
  exact (proj1 (delete_hands_over_operation accepting
                  (Autoscaler_new creating sample_zone "autoscaler-name")
                  sample_world _ (JsString "operation-1") eq_refl eq_refl)).
Defined.

(** C4 as first stated, for every answer without an error, fails: on an
    answer with neither error nor body, [delete] hands nothing to its
    callback, whatever the callback is. *)
Lemma delete_without_body_hands_over_nothing :
  bodiless (trace sample_world) (delete_request sample_handle) =
    (None, JsUndefined) /\
  ~ exists err operation resp w',
      calls_back (Autoscaler_delete bodiless sample_handle) sample_world
        err operation resp w'.
Proof.
  split; [reflexivity|].
  intros (err & operation & resp & w' & Hcb).
  specialize (Hcb None). vm_compute in Hcb. discriminate Hcb.
Qed.

(** C5: when the transport answers [delete] or [setMetadata] with an error,
    the callback receives that very error and a null operation, in the
    world reached by the one request the method sent: nothing is sent
    again and nothing stands in for the error. *)
Theorem transport_error_reaches_callback
    (transport : list Event -> Sent -> option ApiError * JsValue)
    (this : Autoscaler) (w : World) (e : ApiError) (resp : JsValue) :
  (transport (trace w) (delete_request this) = (Some e, resp) ->
   calls_back (Autoscaler_delete transport this) w (Some e) None resp
     (after_request w (delete_request this))) /\
  (forall metadata p,
     patch_of w metadata = Some p ->
     transport (trace w) (patch_request this (Some (stamped this p))) =
       (Some e, resp) ->
     calls_back (Autoscaler_setMetadata transport this metadata) w
       (Some e) None resp
       {| heap := <[patch_target w metadata := stamped this p]> (heap w);
          trace := trace w ++
                   [EvRequest (patch_request this (Some (stamped this p)))] |}).
Proof.
  split.
  - intros Hreply callback. by rewrite Autoscaler_delete_run, Hreply.
  - intros metadata p Hp Hreply callback.
    by rewrite (Autoscaler_setMetadata_run transport this metadata callback w p Hp),
      Hreply.
Qed.

Lemma transport_error_reaches_callback_witness :
  calls_back
    (Autoscaler_delete (failing 503)
       (Autoscaler_new creating sample_zone "autoscaler-name"))
    sample_world (Some {| code := 503; message := "failed" |}) None JsNull
    (after_request sample_world
       (delete_request (Autoscaler_new creating sample_zone "autoscaler-name")))
  /\
  calls_back
    (Autoscaler_setMetadata (failing 503)
       (Autoscaler_new creating sample_zone "autoscaler-name") None)
    sample_world (Some {| code := 503; message := "failed" |}) None JsNull
    {| heap :=
         <[patch_target sample_world None :=
             [("name", JsString "autoscaler-name");
              ("zone", JsString "us-central1-a")]]> (heap sample_world);
       trace :=
         [EvRequest
            (patch_request
               (Autoscaler_new creating sample_zone "autoscaler-name")
               (Some [("name", JsString "autoscaler-name");
                      ("zone", JsString "us-central1-a")]))] |}.
Proof.
  pose proof (transport_error_reaches_callback (failing 503)
                (Autoscaler_new creating sample_zone "autoscaler-name")
                sample_world {| code := 503; message := "failed" |} JsNull)
    as [Hdelete HsetMetadata].
  split.
  - exact (Hdelete eq_refl).
  - exact (HsetMetadata None [] eq_refl eq_refl).
Defined.

(** ** The exported methods: callback style and promise style *)

Lemma setMetadata_promisified_callback_style
    (transport : list Event -> Sent -> option ApiError * JsValue)
    (this : Autoscaler) (cb : OperationCallback)
    (resolve : option Operation * JsValue -> M unit)
    (reject : ApiError -> M unit) :
  Autoscaler_setMetadata_promisified transport this
    [ArgUndefined; ArgFunction cb] resolve reject =
  Autoscaler_setMetadata transport this None (Some cb).
Proof. reflexivity. Qed.

(** C7: the two styles do not agree on every input.  [setMetadata()] with
    neither patch nor callback raises before anything is sent: the
    callback the promise wrapper appends is bound to [metadata], and the
    assignment to its read-only [name] raises, so that the promise is
    rejected with that [TypeError] and no handler sees an answer.
    [setMetadata(undefined, cb)], the callback style of the same call,
    sends the PATCH with [name] and [zone] and hands the answer of the
    transport to [cb]. *)
Theorem promise_style_setMetadata_without_patch_raises
    (transport : list Event -> Sent -> option ApiError * JsValue)
    (this : Autoscaler) (w : World) :
  (forall resolve reject,
      Autoscaler_setMetadata_promisified transport this [] resolve reject w =
      (Throw (TypeError "Cannot assign to read only property 'name' of function"),
       w)) /\
  (exists w',
      trace w' =
        trace w ++
        [EvRequest
           (patch_request this
              (Some [("name", JsString (name this));
                     ("zone", JsString (zone_name (zone this)))]))] /\
      ((exists err operation resp,
           forall cb resolve reject,
             Autoscaler_setMetadata_promisified transport this
               [ArgUndefined; ArgFunction cb] resolve reject w =
             cb err operation resp w') \/
       (exists exn,
           forall cb resolve reject,
             Autoscaler_setMetadata_promisified transport this
               [ArgUndefined; ArgFunction cb] resolve reject w =
             (Throw exn, w')))).
Proof.
  split; [reflexivity|].
  exists {| heap := <[patch_target w None := stamped this []]> (heap w);
            trace := trace w ++
                     [EvRequest (patch_request this (Some (stamped this [])))] |}.
  split; [reflexivity|].
  destruct (on_answer_outcome this
              (Autoscaler_setMetadata transport this None) w _ _
              (fun callback =>
                 Autoscaler_setMetadata_run transport this None callback w []
                   eq_refl))
    as [(err & op & resp & Hcb)|(exn & Hr)].
  - left. exists err, op, resp. intros cb resolve reject.
    rewrite setMetadata_promisified_callback_style. exact (Hcb (Some cb)).
  - right. exists exn. intros cb resolve reject.
    rewrite setMetadata_promisified_callback_style. exact (Hr (Some cb)).
Qed.

Example setMetadata_promise_style_without_patch :
  Autoscaler_setMetadata_promisified accepting sample_handle []
    (fun _ => ret tt) (fun _ => ret tt) sample_world =
  (Throw (TypeError "Cannot assign to read only property 'name' of function"),
   sample_world).
Proof. reflexivity. Qed.

Example setMetadata_callback_style_without_patch :
  trace (Autoscaler_setMetadata_promisified accepting sample_handle
           [ArgUndefined; ArgFunction (fun _ _ _ => ret tt)]
           (fun _ => ret tt) (fun _ => ret tt) sample_world).2 =
  [EvRequest
     (patch_request sample_handle
        (Some [("name", JsString "autoscaler-name");
               ("zone", JsString "us-central1-a")]))].
Proof. vm_compute. reflexivity. Qed.

Example setMetadata_promise_style_with_patch :
  trace (Autoscaler_setMetadata_promisified accepting sample_handle
           [ArgObject 1%positive]
           (fun _ => ret tt) (fun _ => ret tt) sample_world).2 =
  [EvRequest (patch_request sample_handle (Some sample_body))].
Proof. vm_compute. reflexivity. Qed.

(** ** The constructor *)

(** C8: the constructor hands [zone.compute.pollIntervalMs], a number of
    milliseconds, to [ServiceObject] as the handle's [pollIntervalMs]. *)
Theorem constructor_inherits_pollIntervalMs
    (creation : list Event -> Zone -> string -> JsValue ->
                option ApiError * option Operation * JsValue)
    (zone : Zone) (name : string) :
  config_pollIntervalMs (super (Autoscaler_new creation zone name)) =
    pollIntervalMs (compute zone).
Proof. reflexivity. Qed.

(** ** The inherited methods *)

(** C3: [exists()] of an autoscaler handle performs the metadata fetch and
    hands its callback [false] exactly when the fetch fails with not-found,
    and then with no error beside it: the not-found error is turned into
    the boolean, not passed on.  It hands over [true], with no error, when
    the fetch succeeds, and the error itself, with no boolean, for every
    other failure. *)
Theorem exists_translates_not_found
    (transport : list Event -> Sent -> option ApiError * JsValue)
    (creation : list Event -> Zone -> string -> JsValue ->
                option ApiError * option Operation * JsValue)
    (zone : Zone) (name : string) (w : World) :
  let this := Autoscaler_new creation zone name in
  let s := get_request (super this) in
  exists err result,
    (forall callback,
        Autoscaler_exists transport this callback w =
        callback err result (after_request w s)) /\
    (result = Some false <->
     exists e, (transport (trace w) s).1 = Some e /\ is_not_found e = true) /\
    (forall e,
        (transport (trace w) s).1 = Some e -> is_not_found e = true ->
        err = None /\ result = Some false) /\
    ((transport (trace w) s).1 = None -> err = None /\ result = Some true) /\
    (forall e,
        (transport (trace w) s).1 = Some e -> is_not_found e = false ->
        err = Some e /\ result = None).
Proof.
  intros this s.
  assert (forall callback,
             Autoscaler_exists transport this callback w =
             match (transport (trace w) s).1 with
             | Some e =>
                 if is_not_found e then callback None (Some false)
                 else callback (Some e) None
             | None => callback None (Some true)
             end (after_request w s)) as Hrun.
  { intros callback. subst s this.
    unfold Autoscaler_exists, inherited, ServiceObject_exists, ServiceObject_get,
      ServiceObject_getMetadata, ServiceObject_request, request, get_request.
    cbn [Autoscaler_new super methods methods_exists method uri qs json
         parent baseUrl id autoCreate].
    destruct (transport (trace w) _) as [[e|] resp]; cbn [fst]; [|reflexivity].
    destruct (is_not_found e); reflexivity. }
  destruct ((transport (trace w) s).1) as [e|] eqn:Hreply.
  - destruct (is_not_found e) eqn:Hnf.
    + exists None, (Some false). split; [|split; [|split; [|split]]].
      * intros callback. rewrite Hrun. reflexivity.
      * split; [intros _; by exists e|done].
      * done.
      * done.
      * intros e' [= <-]. congruence.
    + exists (Some e), None. split; [|split; [|split; [|split]]].
      * intros callback. rewrite Hrun. reflexivity.
      * split; [done|]. intros (e' & [= <-] & Hnf'). congruence.
      * intros e' [= <-]. congruence.
      * done.
      * by intros e' [= <-] _.
  - exists None, (Some true). split; [|split; [|split; [|split]]].
    + intros callback. rewrite Hrun. reflexivity.
    + split; [done|]. by intros (e & He & _).
    + done.
    + done.
    + done.
Qed.



(** ** Waiting on an operation *)

Lemma reaches_done_next (fetch : nat -> ApiError + OperationState)
    (k n : nat) (s : OperationState) :
  reaches_done fetch k (S n) s -> reaches_done fetch (S k) n s.
Proof.
  intros (Hbefore & Hat & Hdone). split; [|split]; [| |done].
  - intros i Hi. replace (S k + i) with (k + S i) by lia. apply Hbefore. lia.
  - by replace (S k + n) with (k + S n) by lia.
Qed.

(** With enough polls left, the wait ends at the first [DONE] fetch and
    settles with it. *)
Lemma wait_reaches_done (fetch : nat -> ApiError + OperationState)
    (polls k n : nat) (s : OperationState) :
  reaches_done fetch k n s -> n < polls -> wait fetch polls k = settle s.
Proof.
  revert polls k. induction n as [|n IH]; intros polls k Hreach Hpolls.
  - destruct polls as [|polls]; [lia|].
    destruct Hreach as (_ & Hat & Hdone).
    rewrite Nat.add_0_r in Hat. simpl. by rewrite Hat, Hdone.
  - destruct polls as [|polls]; [lia|].
    destruct (proj1 Hreach 0) as (s' & Hs' & Hrunning); [lia|].
    rewrite Nat.add_0_r in Hs'. simpl. rewrite Hs'.
    rewrite <- (IH polls (S k)); [|by apply reaches_done_next|lia].
    by destruct (status s').
Qed.

(** C1: a wait on an operation that reaches DONE before the wait runs out
    resolves exactly when the operation's error list is empty, rejects with
    an [OperationError] carrying that very list exactly when it is not, and
    has no other outcome; so there are DONE operations whose wait fails. *)
Theorem wait_done_succeeds_iff_no_errors :
  (forall (fetch : nat -> ApiError + OperationState) (polls k n : nat)
          (s : OperationState),
      reaches_done fetch k n s -> n < polls ->
      (wait fetch polls k = Resolved s <-> errors s = []) /\
      (wait fetch polls k = Rejected (OperationError (errors s)) <->
       errors s <> []) /\
      (wait fetch polls k = Resolved s \/
       wait fetch polls k = Rejected (OperationError (errors s)))) /\
  (exists (fetch : nat -> ApiError + OperationState) (s : OperationState),
      reaches_done fetch 0 0 s /\
      wait fetch 1 0 = Rejected (OperationError (errors s))).
Proof.
  split.
  - intros fetch polls k n s Hreach Hpolls.
    rewrite (wait_reaches_done fetch polls k n s Hreach Hpolls).
    unfold settle. destruct (errors s) as [|err errs] eqn:Herrs.
    + split; [|split]; [done| |by left].
      split; [discriminate|done].
    + split; [|split]; [| |by right].
      * split; discriminate.
      * split; [discriminate|done].
  - exists (fun _ => inr {| status := DONE;
                            errors := [JsString "QUOTA_EXCEEDED"];
                            targetLink := "autoscaler-name" |}).
    eexists. split; [|reflexivity].
    split; [|split]; [|reflexivity..]. intros i Hi. lia.
Qed.

Lemma wait_done_succeeds_iff_no_errors_witness :
  wait (fun i => inr {| status := match i with
                                  | 0 => PENDING
                                  | 1 => RUNNING
                                  | _ => DONE
                                  end;
                        errors := []; targetLink := "autoscaler-name" |})
       3 0 =
  Resolved {| status := DONE; errors := []; targetLink := "autoscaler-name" |}.
Proof.
  refine (proj2 (proj1 (proj1 wait_done_succeeds_iff_no_errors
                          _ 3 0 2
                          {| status := DONE; errors := [];
                             targetLink := "autoscaler-name" |} _ _)) eq_refl).
  - split; [|split]; [|reflexivity..].
    intros i Hi. destruct i as [|[|i]]; [eexists; split; [reflexivity|discriminate]..|lia].
  - lia.
Defined.

(** A wait whose polls all come back before [DONE] runs out of time. *)
Lemma wait_times_out (fetch : nat -> ApiError + OperationState)
    (polls k : nat) :
  (forall i, exists s, fetch i = inr s /\ status s <> DONE) ->
  wait fetch polls k = Rejected TimeoutError.
Proof.
  intros Hnever. revert k.
  induction polls as [|polls IH]; intros k; [reflexivity|].
  simpl. destruct (Hnever k) as (s & -> & Hs).
  rewrite IH. by destruct (status s).
Qed.

(** ** The model at work *)

Example set_field_overwrites_in_position :
  set_field "name" (JsString "b")
    [("name", JsString "a"); ("description", JsString "d")] =
  [("name", JsString "b"); ("description", JsString "d")].
Proof. reflexivity. Qed.

Example set_field_appends :
  set_field "zone" (JsString "z") [("description", JsString "d")] =
  [("description", JsString "d"); ("zone", JsString "z")].
Proof. reflexivity. Qed.

Example setMetadata_omitted_sends_name_and_zone :
  trace (Autoscaler_setMetadata accepting
           (Autoscaler_new creating sample_zone "autoscaler-name")
           None None sample_world).2 =
  [EvRequest
     {| sent_by := ViaZone sample_zone;
        sent_method := PATCH;
        sent_uri := "/autoscalers";
        sent_qs := [("autoscaler", "autoscaler-name")];
        sent_body := Some [("name", JsString "autoscaler-name");
                           ("zone", JsString "us-central1-a")] |}].
Proof. vm_compute. reflexivity. Qed.

Example setMetadata_writes_callers_object :
  heap (Autoscaler_setMetadata accepting
          (Autoscaler_new creating sample_zone "autoscaler-name")
          (Some 1%positive) None sample_world).2 !! 1%positive =
  Some [("description", JsString "New description");
        ("name", JsString "autoscaler-name");
        ("zone", JsString "us-central1-a")].
Proof. vm_compute. reflexivity. Qed.

Example delete_without_body_raises :
  (Autoscaler_delete (fun _ _ => (None, JsUndefined))
     (Autoscaler_new creating sample_zone "autoscaler-name")
     None sample_world).1 =
  Throw (TypeError "Cannot read properties of undefined").
Proof. reflexivity. Qed.

Example exists_on_missing_resource :
  (Autoscaler_exists (failing 404)
     (Autoscaler_new creating sample_zone "autoscaler-name")
     (fun err result =>
        match err, result with
        | None, Some false => ret tt
        | _, _ => throw (TypeError "unexpected")
        end)
     sample_world).1 = Ok tt.
Proof. reflexivity. Qed.

Example exists_on_server_error :
  (Autoscaler_exists (failing 500)
     (Autoscaler_new creating sample_zone "autoscaler-name")
     (fun err result =>
        match err, result with
        | Some e, None => if (code e =? 500)%Z then ret tt
                          else throw (TypeError "another error")
        | _, _ => throw (TypeError "unexpected")
        end)
     sample_world).1 = Ok tt.
Proof. reflexivity. Qed.

Example wait_three_polls_never_done :
  wait (fun _ => inr {| status := RUNNING; errors := [];
                        targetLink := "autoscaler-name" |}) 3 0 =
  Rejected TimeoutError.
Proof. reflexivity. Qed.

(** ** More on property assignment *)

(** Assigning the value a property already has changes nothing. *)
Lemma set_field_same_value (k : string) (v : JsValue) (o : Fields) :
  get_field k o = Some v -> set_field k v o = o.
Proof.
  induction o as [|[k' v'] o IH]; simpl; [discriminate|].
  destruct (String.eqb k k') eqn:E.
  - apply String.eqb_eq in E. by intros [= ->]; subst.
  - intros Hget. by rewrite IH.
Qed.

(** A second assignment to a property replaces the first. *)
Lemma set_field_twice (k : string) (v v' : JsValue) (o : Fields) :
  set_field k v' (set_field k v o) = set_field k v' o.
Proof.
  induction o as [|[k0 v0] o IH]; simpl.
  - by rewrite String.eqb_refl.
  - destruct (String.eqb k k0) eqn:E; simpl.
    + by rewrite String.eqb_refl.
    + by rewrite E, IH.
Qed.

(** Assignments to two properties commute once one of them exists. *)
Lemma set_field_comm (k1 k2 : string) (v1 v2 : JsValue) (o : Fields) :
  k1 <> k2 -> is_Some (get_field k1 o) ->
  set_field k1 v1 (set_field k2 v2 o) = set_field k2 v2 (set_field k1 v1 o).
Proof.
  intros Hne.
  assert (String.eqb k1 k2 = false) as H12 by by apply String.eqb_neq.
  assert (String.eqb k2 k1 = false) as H21.
  { apply String.eqb_neq. congruence. }
  induction o as [|[k0 v0] o IH]; simpl; intros [x Hx]; [discriminate|].
  destruct (String.eqb k1 k0) eqn:E1.
  - apply String.eqb_eq in E1. subst k0. rewrite H21. simpl.
    by rewrite String.eqb_refl, H21.
  - destruct (String.eqb k2 k0) eqn:E2; simpl.
    + by rewrite H12, E2.
    + rewrite E1, E2. f_equal. apply IH. by exists x.
Qed.

Lemma get_field_None (k : string) (o : Fields) :
  get_field k o = None <-> k ∉ o.*1.
Proof.
  induction o as [|[k' v'] o IH]; simpl.
  - split; [intros _; apply not_elem_of_nil|done].
  - rewrite not_elem_of_cons.
    destruct (String.eqb k k') eqn:E.
    + apply String.eqb_eq in E. split; [discriminate|]. by intros [? _].
    + apply String.eqb_neq in E. rewrite IH. tauto.
Qed.

(** The keys after an assignment: unchanged when the property exists, one
    more at the end when it does not. *)
Lemma keys_set_field (k : string) (v : JsValue) (o : Fields) :
  (set_field k v o).*1 =
  match get_field k o with
  | Some _ => o.*1
  | None => o.*1 ++ [k]
  end.
Proof.
  induction o as [|[k' v'] o IH]; [done|].
  cbn [set_field get_field].
  destruct (String.eqb k k') eqn:E; rewrite !fmap_cons; cbn [fst].
  - apply String.eqb_eq in E. by subst.
  - rewrite IH. by destruct (get_field k o).
Qed.

(** Assignment keeps the keys of an object distinct. *)
Lemma NoDup_set_field (k : string) (v : JsValue) (o : Fields) :
  NoDup o.*1 -> NoDup (set_field k v o).*1.
Proof.
  intros Hnd. rewrite keys_set_field.
  destruct (get_field k o) eqn:Hget; [done|].
  apply NoDup_app. split; [done|]. split; [|apply NoDup_singleton].
  intros x Hx ->%list_elem_of_singleton. by apply get_field_None in Hget.
Qed.

Lemma length_set_field (k : string) (v : JsValue) (o : Fields) :
  length (set_field k v o) =
  length o + match get_field k o with Some _ => 0 | None => 1 end.
Proof.
  rewrite <- (length_fmap fst), keys_set_field.
  destruct (get_field k o); rewrite ?length_app, length_fmap; simpl; lia.
Qed.

(** Reading the name of anything but [undefined] and [null] succeeds. *)
Lemma member_raises (v : JsValue) (k : string) :
  (exists exn, member v k = inl exn) <-> v = JsUndefined \/ v = JsNull.
Proof.
  split.
  - intros [exn H]. destruct v; simpl in H; try discriminate; auto.
  - intros [->| ->]; eexists; reflexivity.
Qed.

(** ** The two methods on every answer *)

(** A method that treats the answer as [on_answer] does calls its callback
    once with the answer's error and body, handing over an operation
    exactly when there is no error, unless the answer is a success without
    a body: then, and only then, it raises. *)
Lemma on_answer_cases (this : Autoscaler)
    (m : option OperationCallback -> M unit) (w w' : World)
    (reply : option ApiError * JsValue) :
  (forall callback,
      m callback w = on_answer this (default noop callback) reply w') ->
  ((exists operation,
       calls_back m w reply.1 operation reply.2 w' /\
       (is_Some operation <-> reply.1 = None)) /\
   ~ (reply.1 = None /\ (reply.2 = JsUndefined \/ reply.2 = JsNull))) \/
  ((exists exn, raises m w exn w') /\
   reply.1 = None /\ (reply.2 = JsUndefined \/ reply.2 = JsNull)).
Proof.
  intros Hm. destruct reply as [[e|] resp]; cbn [fst snd].
  - left. split; [|by intros [? _]].
    exists None. split; [exact Hm|]. split; [by intros [? ?]|done].
  - destruct (member resp "name") as [exn|id] eqn:Hid.
    + right. split; [|split; [done|]].
      * exists exn. intros callback. rewrite Hm. simpl. by rewrite Hid.
      * apply (member_raises resp "name"). by exists exn.
    + left. split.
      * eexists (Some _). split; [|by split].
        intros callback. rewrite Hm. simpl. by rewrite Hid.
      * intros [_ Habsent]. apply (member_raises resp "name") in Habsent.
        destruct Habsent as [exn Hexn]. congruence.
Qed.

(** X1: whatever the transport answers, [delete] sends exactly its one
    DELETE request, writes nothing to the store, and then calls its
    callback once with the answer's error and body, with an operation
    exactly when there is no error; the one exception is a success answer
    whose body is [undefined] or [null], on which it raises without
    calling the callback. *)
Theorem delete_outcome
    (transport : list Event -> Sent -> option ApiError * JsValue)
    (this : Autoscaler) (w : World) :
  let reply := transport (trace w) (delete_request this) in
  let w' := {| heap := heap w;
               trace := trace w ++ [EvRequest (delete_request this)] |} in
  ((exists operation,
       calls_back (Autoscaler_delete transport this) w
         reply.1 operation reply.2 w' /\
       (is_Some operation <-> reply.1 = None)) /\
   ~ (reply.1 = None /\ (reply.2 = JsUndefined \/ reply.2 = JsNull))) \/
  ((exists exn, raises (Autoscaler_delete transport this) w exn w') /\
   reply.1 = None /\ (reply.2 = JsUndefined \/ reply.2 = JsNull)).
Proof.
  intros reply w'.
  exact (on_answer_cases this (Autoscaler_delete transport this) w w' reply
           (fun callback => Autoscaler_delete_run transport this callback w)).
Qed.

(** X2: whatever the transport answers, [setMetadata] on a patch object
    (or an omitted one) writes the stamped patch to that object and to no
    other, sends exactly its one PATCH request, and then calls its callback
    once with the answer's error and body, with an operation exactly when
    there is no error; on a success answer whose body is [undefined] or
    [null] it raises without calling the callback, the write and the
    request having happened. *)
Theorem setMetadata_outcome
    (transport : list Event -> Sent -> option ApiError * JsValue)
    (this : Autoscaler) (metadata : option loc) (w : World) (p : Fields) :
  patch_of w metadata = Some p ->
  let body := set_field "zone" (JsString (zone_name (zone this)))
                (set_field "name" (JsString (name this)) p) in
  let s := patch_request this (Some body) in
  let reply := transport (trace w) s in
  let w' := {| heap := <[patch_target w metadata := body]> (heap w);
               trace := trace w ++ [EvRequest s] |} in
  ((exists operation,
       calls_back (Autoscaler_setMetadata transport this metadata) w
         reply.1 operation reply.2 w' /\
       (is_Some operation <-> reply.1 = None)) /\
   ~ (reply.1 = None /\ (reply.2 = JsUndefined \/ reply.2 = JsNull))) \/
  ((exists exn,
       raises (Autoscaler_setMetadata transport this metadata) w exn w') /\
   reply.1 = None /\ (reply.2 = JsUndefined \/ reply.2 = JsNull)).
Proof.
  intros Hp body s reply w'.
  exact (on_answer_cases this (Autoscaler_setMetadata transport this metadata)
           w w' reply
           (fun callback =>
              Autoscaler_setMetadata_run transport this metadata callback w p
                Hp)).
Qed.

Lemma setMetadata_outcome_witness :
  exists exn,
    raises
      (Autoscaler_setMetadata (fun _ _ => (None, JsNull))
         (Autoscaler_new creating sample_zone "autoscaler-name")
         (Some 1%positive))
      sample_world exn
      {| heap :=
           <[1%positive :=
               [("description", JsString "New description");
                ("name", JsString "autoscaler-name");
                ("zone", JsString "us-central1-a")]]> (heap sample_world);
         trace :=
           [EvRequest
              (patch_request
                 (Autoscaler_new creating sample_zone "autoscaler-name")
                 (Some [("description", JsString "New description");
                        ("name", JsString "autoscaler-name");
                        ("zone", JsString "us-central1-a")]))] |}.
Proof.
  destruct (setMetadata_outcome (fun _ _ => (None, JsNull))
              (Autoscaler_new creating sample_zone "autoscaler-name")
              (Some 1%positive) sample_world _ eq_refl)
    as [[_ Hbody]|[Hraises _]].
  - exfalso. apply Hbody. split; [reflexivity|by right].
  - exact Hraises.
Defined.

(** [setMetadata] reaches the world with the stamped patch written and the
    request sent, and there calls back or raises. *)
Lemma setMetadata_reaches
    (transport : list Event -> Sent -> option ApiError * JsValue)
    (this : Autoscaler) (metadata : option loc) (w : World) (p : Fields) :
  patch_of w metadata = Some p ->
  let w' := {| heap := <[patch_target w metadata := stamped this p]> (heap w);
               trace := trace w ++
                        [EvRequest (patch_request this (Some (stamped this p)))] |} in
  (exists err operation resp,
      calls_back (Autoscaler_setMetadata transport this metadata) w
        err operation resp w') \/
  (exists exn,
      raises (Autoscaler_setMetadata transport this metadata) w exn w').
Proof.
  intros Hp w'.
  exact (on_answer_outcome this (Autoscaler_setMetadata transport this metadata)
           w w' _
           (fun callback =>
              Autoscaler_setMetadata_run transport this metadata callback w p
                Hp)).
Qed.

(** The id [on_answer] builds the operation from. *)
Lemma member_name_of_body (resp : JsValue) :
  resp <> JsUndefined -> resp <> JsNull ->
  member resp "name" =
  inr match resp with
      | JsObject o => default JsUndefined (get_field "name" o)
      | _ => JsUndefined
      end.
Proof. intros Hu Hn. by destruct resp. Qed.

(** X3: a success answer needs no [name] for an operation to be handed
    over: [delete] and [setMetadata] build the operation from the [name]
    field of an object body when there is one, and with the id [undefined]
    when the body is an object without [name] or is no object at all. *)
Theorem operation_id_read_from_body
    (transport : list Event -> Sent -> option ApiError * JsValue)
    (this : Autoscaler) (w : World) (resp : JsValue) :
  resp <> JsUndefined -> resp <> JsNull ->
  let operation :=
    {| operation_zone := zone this;
       operation_id := match resp with
                       | JsObject o => default JsUndefined (get_field "name" o)
                       | _ => JsUndefined
                       end;
       operation_metadata := resp |} in
  (transport (trace w) (delete_request this) = (None, resp) ->
   calls_back (Autoscaler_delete transport this) w None (Some operation) resp
     {| heap := heap w;
        trace := trace w ++ [EvRequest (delete_request this)] |}) /\
  (forall metadata p,
      patch_of w metadata = Some p ->
      let body := set_field "zone" (JsString (zone_name (zone this)))
                    (set_field "name" (JsString (name this)) p) in
      transport (trace w) (patch_request this (Some body)) = (None, resp) ->
      calls_back (Autoscaler_setMetadata transport this metadata) w
        None (Some operation) resp
        {| heap := <[patch_target w metadata := body]> (heap w);
           trace := trace w ++ [EvRequest (patch_request this (Some body))] |}).
Proof.
  intros Hu Hn operation. split.
  - intros Hreply callback. rewrite Autoscaler_delete_run, Hreply.
    unfold on_answer. by rewrite (member_name_of_body resp Hu Hn).
  - intros metadata p Hp body Hreply callback.
    rewrite (Autoscaler_setMetadata_run transport this metadata callback w p Hp).
    fold (stamped this p) in body. subst body.
    rewrite Hreply. unfold on_answer.
    by rewrite (member_name_of_body resp Hu Hn).
Qed.

Lemma operation_id_read_from_body_witness :
  calls_back
    (Autoscaler_delete (fun _ _ => (None, JsObject [("status", JsString "DONE")]))
       (Autoscaler_new creating sample_zone "autoscaler-name"))
    sample_world None
    (Some {| operation_zone := sample_zone;
             operation_id := JsUndefined;
             operation_metadata := JsObject [("status", JsString "DONE")] |})
    (JsObject [("status", JsString "DONE")])
    {| heap := heap sample_world;
       trace :=
         [EvRequest
            (delete_request
               (Autoscaler_new creating sample_zone "autoscaler-name"))] |}.
Proof.
  assert (JsObject [("status", JsString "DONE")] <> JsUndefined) as Hu
    by discriminate.
  assert (JsObject [("status", JsString "DONE")] <> JsNull) as Hn
    by discriminate.
  exact (proj1 (operation_id_read_from_body
                  (fun _ _ => (None, JsObject [("status", JsString "DONE")]))
                  (Autoscaler_new creating sample_zone "autoscaler-name")
                  sample_world _ Hu Hn) eq_refl).
Defined.






(** ** Patches that are sent more than once *)

Lemma stamped_named (this : Autoscaler) (p : Fields) :
  get_field "name" p = Some (JsString (name this)) ->
  get_field "zone" p = Some (JsString (zone_name (zone this))) ->
  stamped this p = p.
Proof.
  intros Hname Hzone. unfold stamped.
  rewrite (set_field_same_value "name" _ p Hname).
  by apply set_field_same_value.
Qed.

Lemma stamped_idempotent (this : Autoscaler) (p : Fields) :
  stamped this (stamped this p) = stamped this p.
Proof.
  apply stamped_named; unfold stamped.
  - rewrite get_set_field_other by discriminate. apply get_set_field_same.
  - apply get_set_field_same.
Qed.

Lemma stamped_last_wins (a b : Autoscaler) (p : Fields) :
  stamped b (stamped a p) = stamped b p.
Proof.
  unfold stamped.
  rewrite (set_field_comm "name" "zone") by
    (try discriminate; rewrite get_set_field_same; by eexists).
  by rewrite !set_field_twice.
Qed.

(** X5: a patch that already carries the handle's name and zone is sent
    exactly as it is, and the store is left as it was. *)
Theorem setMetadata_named_patch_unchanged
    (transport : list Event -> Sent -> option ApiError * JsValue)
    (this : Autoscaler) (l : loc) (w : World) (p : Fields) :
  heap w !! l = Some p ->
  get_field "name" p = Some (JsString (name this)) ->
  get_field "zone" p = Some (JsString (zone_name (zone this))) ->
  exists w',
    heap w' = heap w /\
    trace w' = trace w ++ [EvRequest (patch_request this (Some p))] /\
    ((exists err operation resp,
         calls_back (Autoscaler_setMetadata transport this (Some l)) w
           err operation resp w') \/
     (exists exn,
         raises (Autoscaler_setMetadata transport this (Some l)) w exn w')).
Proof.
  intros Hl Hname Hzone.
  pose proof (setMetadata_reaches transport this (Some l) w p Hl) as Hrun.
  rewrite (stamped_named this p Hname Hzone) in Hrun.
  eexists. split; [|split; [|exact Hrun]]; [|reflexivity].
  by apply insert_id.
Qed.

Lemma setMetadata_named_patch_unchanged_witness :
  exists w',
    heap w' = {[ 1%positive := sample_body ]} /\
    trace w' = [EvRequest (patch_request sample_handle (Some sample_body))].
Proof.
  assert (heap {| heap := {[ 1%positive := sample_body ]}; trace := [] |}
            !! 1%positive = Some sample_body) as Hl by reflexivity.
  destruct (setMetadata_named_patch_unchanged accepting sample_handle
              1%positive _ sample_body Hl eq_refl eq_refl)
    as (w' & Hheap & Htrace & _).
  exists w'. split; [exact Hheap | exact Htrace].
Defined.

(** X6: calling [setMetadata] a second time with the same object, in the
    world the first call left, sends the same body again and changes
    nothing in the store. *)
Theorem setMetadata_twice_sends_same_body
    (transport : list Event -> Sent -> option ApiError * JsValue)
    (this : Autoscaler) (l : loc) (w : World) (p : Fields) :
  heap w !! l = Some p ->
  let body := set_field "zone" (JsString (zone_name (zone this)))
                (set_field "name" (JsString (name this)) p) in
  let s := patch_request this (Some body) in
  let w1 := {| heap := <[l := body]> (heap w);
               trace := trace w ++ [EvRequest s] |} in
  let w2 := {| heap := heap w1; trace := trace w1 ++ [EvRequest s] |} in
  ((exists err operation resp,
       calls_back (Autoscaler_setMetadata transport this (Some l)) w
         err operation resp w1) \/
   (exists exn,
       raises (Autoscaler_setMetadata transport this (Some l)) w exn w1)) /\
  ((exists err operation resp,
       calls_back (Autoscaler_setMetadata transport this (Some l)) w1
         err operation resp w2) \/
   (exists exn,
       raises (Autoscaler_setMetadata transport this (Some l)) w1 exn w2)).
Proof.
  intros Hl body s w1 w2. split.
  - exact (setMetadata_reaches transport this (Some l) w p Hl).
  - pose proof (setMetadata_reaches transport this (Some l) w1 (stamped this p)
                  (lookup_insert_eq _ _ _)) as Hrun.
    rewrite stamped_idempotent in Hrun. cbn [patch_target heap w1] in Hrun.
    by rewrite insert_insert_eq in Hrun.
Qed.

Lemma setMetadata_twice_sends_same_body_witness :
  exists err operation resp,
    calls_back (Autoscaler_setMetadata accepting sample_handle (Some 1%positive))
      {| heap := <[1%positive := sample_body]> (heap sample_world);
         trace :=
           [EvRequest (patch_request sample_handle (Some sample_body))] |}
      err operation resp
      {| heap := <[1%positive := sample_body]> (heap sample_world);
         trace :=
           [EvRequest (patch_request sample_handle (Some sample_body));
            EvRequest (patch_request sample_handle (Some sample_body))] |}.
Proof.
  destruct (proj2 (setMetadata_twice_sends_same_body accepting sample_handle
                     1%positive sample_world _ eq_refl))
    as [Hcb|[exn Hraises]]; [exact Hcb|].
  specialize (Hraises None). vm_compute in Hraises. discriminate Hraises.
Defined.

(** X7: when an object that one handle's [setMetadata] has written is
    given to another handle's [setMetadata], the second call sends the
    original patch with the second handle's name and zone: nothing of the
    first handle is left in the body or in the object. *)
Theorem setMetadata_last_handle_wins
    (transport : list Event -> Sent -> option ApiError * JsValue)
    (a b : Autoscaler) (l : loc) (w : World) (p : Fields) :
  heap w !! l = Some p ->
  let body_a := set_field "zone" (JsString (zone_name (zone a)))
                  (set_field "name" (JsString (name a)) p) in
  let body_b := set_field "zone" (JsString (zone_name (zone b)))
                  (set_field "name" (JsString (name b)) p) in
  let w1 := {| heap := <[l := body_a]> (heap w);
               trace := trace w ++ [EvRequest (patch_request a (Some body_a))] |} in
  let w2 := {| heap := <[l := body_b]> (heap w);
               trace := trace w1 ++ [EvRequest (patch_request b (Some body_b))] |} in
  ((exists err operation resp,
       calls_back (Autoscaler_setMetadata transport a (Some l)) w
         err operation resp w1) \/
   (exists exn,
       raises (Autoscaler_setMetadata transport a (Some l)) w exn w1)) /\
  ((exists err operation resp,
       calls_back (Autoscaler_setMetadata transport b (Some l)) w1
         err operation resp w2) \/
   (exists exn,
       raises (Autoscaler_setMetadata transport b (Some l)) w1 exn w2)).
Proof.
  intros Hl body_a body_b w1 w2. split.
  - exact (setMetadata_reaches transport a (Some l) w p Hl).
  - pose proof (setMetadata_reaches transport b (Some l) w1 (stamped a p)
                  (lookup_insert_eq _ _ _)) as Hrun.
    rewrite stamped_last_wins in Hrun. cbn [patch_target heap w1] in Hrun.
    by rewrite insert_insert_eq in Hrun.
Qed.

Lemma setMetadata_last_handle_wins_witness :
  exists err operation resp,
    calls_back (Autoscaler_setMetadata accepting other_handle (Some 1%positive))
      {| heap := <[1%positive := sample_body]> (heap sample_world);
         trace :=
           [EvRequest (patch_request sample_handle (Some sample_body))] |}
      err operation resp
      {| heap :=
           <[1%positive :=
               [("description", JsString "New description");
                ("name", JsString "other-autoscaler");
                ("zone", JsString "europe-west1-b")]]> (heap sample_world);
         trace :=
           [EvRequest (patch_request sample_handle (Some sample_body));
            EvRequest
              (patch_request other_handle
                 (Some [("description", JsString "New description");
                        ("name", JsString "other-autoscaler");
                        ("zone", JsString "europe-west1-b")]))] |}.
Proof.
  destruct (proj2 (setMetadata_last_handle_wins accepting sample_handle
                     other_handle 1%positive sample_world _ eq_refl))
    as [Hcb|[exn Hraises]]; [exact Hcb|].
  specialize (Hraises None). vm_compute in Hraises. discriminate Hraises.
Defined.

(** X8: [setMetadata] keeps the caller's object well formed and adds at
    most two properties: if the keys of the patch are distinct, so are the
    keys of the body sent and left in the object; the body has the
    properties of the patch plus [name] and [zone] where the patch lacked
    them, appended in that order. *)
Theorem setMetadata_keeps_keys_distinct
    (transport : list Event -> Sent -> option ApiError * JsValue)
    (this : Autoscaler) (metadata : option loc) (w : World) (p : Fields) :
  patch_of w metadata = Some p ->
  NoDup p.*1 ->
  exists body w',
    NoDup body.*1 /\
    body.*1 =
      p.*1 ++
      match get_field "name" p with Some _ => [] | None => ["name"] end ++
      match get_field "zone" p with Some _ => [] | None => ["zone"] end /\
    length p <= length body <= length p + 2 /\
    heap w' !! patch_target w metadata = Some body /\
    trace w' = trace w ++ [EvRequest (patch_request this (Some body))] /\
    ((exists err operation resp,
         calls_back (Autoscaler_setMetadata transport this metadata) w
           err operation resp w') \/
     (exists exn,
         raises (Autoscaler_setMetadata transport this metadata) w exn w')).
Proof.
  intros Hp Hnd.
  assert ((stamped this p).*1 =
          p.*1 ++
          match get_field "name" p with Some _ => [] | None => ["name"] end ++
          match get_field "zone" p with Some _ => [] | None => ["zone"] end)
    as Hkeys.
  { unfold stamped. rewrite !keys_set_field.
    rewrite get_set_field_other by discriminate.
    destruct (get_field "name" p), (get_field "zone" p);
      by rewrite <- ?app_assoc, ?app_nil_r. }
  exists (stamped this p).
  exists {| heap := <[patch_target w metadata := stamped this p]> (heap w);
            trace := trace w ++
                     [EvRequest (patch_request this (Some (stamped this p)))] |}.
  repeat apply conj.
  - unfold stamped. by do 2 apply NoDup_set_field.
  - exact Hkeys.
  - rewrite <- !(length_fmap fst), Hkeys, !length_app.
    destruct (get_field "name" p), (get_field "zone" p); simpl; lia.
  - rewrite <- !(length_fmap fst), Hkeys, !length_app.
    destruct (get_field "name" p), (get_field "zone" p); simpl; lia.
  - apply lookup_insert_eq.
  - reflexivity.
  - exact (setMetadata_reaches transport this metadata w p Hp).
Qed.

Lemma setMetadata_keeps_keys_distinct_witness :
  exists body w',
    NoDup body.*1 /\
    body.*1 = ["description"; "name"; "zone"] /\
    heap w' !! 1%positive = Some body.
Proof.
  assert (NoDup [("description", JsString "New description");
                 ("name", JsString "other")].*1) as Hnd.
  { apply NoDup_cons. split; [|apply NoDup_singleton].
    intros Hin%list_elem_of_singleton. discriminate Hin. }
  destruct (setMetadata_keeps_keys_distinct accepting sample_handle
              (Some 1%positive) sample_world _ eq_refl Hnd)
    as (body & w' & Hdistinct & Hkeys & _ & Hheap & _).
  exists body, w'. split; [exact Hdistinct|]. split; [exact Hkeys|exact Hheap].
Defined.

(** ** The constructor and the two methods together *)

(** X9: on a handle built by the constructor, [delete] and [setMetadata]
    address the same resource: the DELETE goes through the handle, under
    the zone, base path and id given to [ServiceObject]; the PATCH goes
    through that same zone, to that same base path, naming that same id in
    its query string, and the [name] written into its body is that id. *)
Theorem methods_address_constructed_handle
    (transport : list Event -> Sent -> option ApiError * JsValue)
    (creation : list Event -> Zone -> string -> JsValue ->
                option ApiError * option Operation * JsValue)
    (zone : Zone) (name : string) (metadata : option loc) (w : World)
    (p : Fields) :
  patch_of w metadata = Some p ->
  let this := Autoscaler_new creation zone name in
  exists sd sp body wd wp,
    trace wd = trace w ++ [EvRequest sd] /\
    ((exists err operation resp,
         calls_back (Autoscaler_delete transport this) w err operation resp wd) \/
     (exists exn, raises (Autoscaler_delete transport this) w exn wd)) /\
    trace wp = trace w ++ [EvRequest sp] /\
    ((exists err operation resp,
         calls_back (Autoscaler_setMetadata transport this metadata) w
           err operation resp wp) \/
     (exists exn,
         raises (Autoscaler_setMetadata transport this metadata) w exn wp)) /\
    sent_by sd =
      ViaHandle (parent (super this)) (baseUrl (super this)) (id (super this)) /\
    sent_by sp = ViaZone (parent (super this)) /\
    sent_uri sp = baseUrl (super this) /\
    sent_qs sp = [("autoscaler", id (super this))] /\
    sent_body sp = Some body /\
    get_field "name" body = Some (JsString (id (super this))).
Proof.
  intros Hp this.
  exists (delete_request this), (patch_request this (Some (stamped this p))),
    (stamped this p).
  exists (after_request w (delete_request this)).
  exists {| heap := <[patch_target w metadata := stamped this p]> (heap w);
            trace := trace w ++
                     [EvRequest (patch_request this (Some (stamped this p)))] |}.
  repeat apply conj.
  - reflexivity.
  - exact (on_answer_outcome this (Autoscaler_delete transport this) w
             (after_request w (delete_request this)) _
             (fun callback => Autoscaler_delete_run transport this callback w)).
  - reflexivity.
  - exact (setMetadata_reaches transport this metadata w p Hp).
  - reflexivity.
  - reflexivity.
  - reflexivity.
  - reflexivity.
  - reflexivity.
  - unfold stamped. rewrite get_set_field_other by discriminate.
    apply get_set_field_same.
Qed.

Lemma methods_address_constructed_handle_witness :
  exists sd sp,
    sent_by sd = ViaHandle sample_zone "/autoscalers" "autoscaler-name" /\
    sent_by sp = ViaZone sample_zone /\
    sent_uri sp = "/autoscalers" /\
    sent_qs sp = [("autoscaler", "autoscaler-name")].
Proof.
  destruct (methods_address_constructed_handle accepting creating sample_zone
              "autoscaler-name" None sample_world [] eq_refl)
    as (sd & sp & body & wd & wp & _ & _ & _ & _ & Hd & Hp & Huri & Hqs & _).
  exists sd, sp. repeat split; assumption.
Defined.

(** X10: [delete] called from the callback of [setMetadata] runs after the
    patch was written and sent: the transport sees the PATCH in the
    history when it answers the DELETE, the trace holds the two requests
    in that order, the store holds the stamped patch, and the last
    callback gets the answer to the DELETE.  This holds whenever the
    answer to the PATCH has an error or a body. *)
Theorem setMetadata_then_delete
    (transport : list Event -> Sent -> option ApiError * JsValue)
    (this : Autoscaler) (metadata : option loc) (w : World) (p : Fields) :
  patch_of w metadata = Some p ->
  let body := set_field "zone" (JsString (zone_name (zone this)))
                (set_field "name" (JsString (name this)) p) in
  let sp := patch_request this (Some body) in
  let first := transport (trace w) sp in
  ~ (first.1 = None /\ (first.2 = JsUndefined \/ first.2 = JsNull)) ->
  let second :=
    transport (trace w ++ [EvRequest sp]) (delete_request this) in
  let w' := {| heap := <[patch_target w metadata := body]> (heap w);
               trace := trace w ++
                        [EvRequest sp; EvRequest (delete_request this)] |} in
  let both := fun callback =>
    Autoscaler_setMetadata transport this metadata
      (Some (fun _ _ _ => Autoscaler_delete transport this callback)) in
  ((exists operation,
       calls_back both w second.1 operation second.2 w' /\
       (is_Some operation <-> second.1 = None)) /\
   ~ (second.1 = None /\ (second.2 = JsUndefined \/ second.2 = JsNull))) \/
  ((exists exn, raises both w exn w') /\
   second.1 = None /\ (second.2 = JsUndefined \/ second.2 = JsNull)).
Proof.
  intros Hp body sp first Hfirst second w' both.
  apply (on_answer_cases this both w w' second).
  intros callback. subst both. cbn beta.
  rewrite (Autoscaler_setMetadata_run transport this metadata _ w p Hp).
  fold (stamped this p) in body. subst body. fold sp. fold first.
  assert (forall w1,
             on_answer this
               (default noop
                  (Some (fun _ _ _ => Autoscaler_delete transport this callback)))
               first w1 =
             Autoscaler_delete transport this callback w1) as Hnext.
  { intros w1. destruct first as [[e|] resp]; [reflexivity|].
    unfold on_answer.
    destruct (member resp "name") as [exn|id] eqn:Hid; [|reflexivity].
    exfalso. apply Hfirst. split; [reflexivity|].
    apply (member_raises resp "name"). by exists exn. }
  rewrite Hnext, Autoscaler_delete_run.
  unfold after_request, w', second. cbn [heap trace].
  by rewrite <- app_assoc.
Qed.

Lemma setMetadata_then_delete_witness :
  Autoscaler_setMetadata accepting sample_handle (Some 1%positive)
    (Some (fun _ _ _ => Autoscaler_delete accepting sample_handle None))
    sample_world =
  (Ok tt,
   {| heap := <[1%positive := sample_body]> (heap sample_world);
      trace :=
        [EvRequest (patch_request sample_handle (Some sample_body));
         EvRequest (delete_request sample_handle)] |}).
Proof.
  assert (~ ((accepting [] (patch_request sample_handle (Some sample_body))).1
               = None /\
             ((accepting [] (patch_request sample_handle (Some sample_body))).2
                = JsUndefined \/
              (accepting [] (patch_request sample_handle (Some sample_body))).2
                = JsNull))) as Hfirst.
  { intros [_ [H|H]]; discriminate H. }
  destruct (setMetadata_then_delete accepting sample_handle (Some 1%positive)
              sample_world _ eq_refl Hfirst)
    as [[(operation & Hcb & _) _]|[_ [_ [H|H]]]];
    [exact (Hcb None)|discriminate H..].
Defined.
